(** * Battery: the Inspired Energy smart-battery register client

    A shallow embedding of [battery.py] (class [Battery]) and the
    properties of its register-access layer.

    The Python class talks to the battery through an [smbus.SMBus]
    object.  That object and the hardware behind it are external to the
    file, so they appear here as an interface ([Transport]); every
    method of the class is a computation in a small state-and-exception
    monad whose state holds the [Battery] object, the state of the bus
    and the list of bus transfers issued so far. *)

From Stdlib Require Import ZArith List Lia Bool.
Import ListNotations.
Local Open Scope Z_scope.

(** ** The external collaborator: the [smbus] module *)

(** [Bus] is the state of the driver and the hardware, [Err] the
    exceptions the module raises, [Handle] an [smbus.SMBus] object.
    The four operations are the ones [battery.py] calls:
    [smbus.SMBus(nBus)], [bus.read_byte_data(addr, comm)],
    [bus.read_block_data(addr, comm, nBytes)] and
    [bus.write_byte_data(addr, comm, word)].  A read hands back a Python
    sequence of integers, which the class indexes. *)
Record Transport : Type := {
  Bus : Type;
  Err : Type;
  Handle : Type;
  SMBus : Z -> Bus -> (Err + Handle) * Bus;
  read_byte_data : Handle -> Z -> Z -> Bus -> (Err + list Z) * Bus;
  read_block_data : Handle -> Z -> Z -> Z -> Bus -> (Err + list Z) * Bus;
  write_byte_data : Handle -> Z -> Z -> Z -> Bus -> (Err + unit) * Bus
}.

(** What a method hands back to its caller: an integer, or [None] when
    the body ends without a [return]. *)
Inductive pyval : Type :=
| PyNone : pyval
| PyInt : Z -> pyval.

Section Client.

Context (T : Transport).

(** Exceptions that can leave a method: the interpreter's own
    [TypeError] (wrong number of arguments, calling a non-callable) and
    [IndexError] (subscript out of range), and whatever the bus raised. *)
Inductive exn : Type :=
| TypeError : exn
| IndexError : exn
| BusError : Err T -> exn.

Inductive outcome (A : Type) : Type :=
| Return : A -> outcome A
| Raise : exn -> outcome A.

Arguments Return {A} _.
Arguments Raise {A} _.

(** One transfer on the wire, as the bus object sees it. *)
Inductive Tx : Type :=
| ReadByteData (b : Handle T) (addr comm : Z)
| ReadBlockData (b : Handle T) (addr comm nBytes : Z)
| WriteByteData (b : Handle T) (addr comm word : Z).

Definition tx_bus (t : Tx) : Handle T :=
  match t with
  | ReadByteData b _ _ | ReadBlockData b _ _ _ | WriteByteData b _ _ _ => b
  end.

Definition tx_addr (t : Tx) : Z :=
  match t with
  | ReadByteData _ a _ | ReadBlockData _ a _ _ | WriteByteData _ a _ _ => a
  end.

Definition tx_comm (t : Tx) : Z :=
  match t with
  | ReadByteData _ _ c | ReadBlockData _ _ c _ | WriteByteData _ _ c _ => c
  end.

Definition is_read (t : Tx) : bool :=
  match t with
  | ReadByteData _ _ _ | ReadBlockData _ _ _ _ => true
  | WriteByteData _ _ _ _ => false
  end.

(** The instance attributes set by [__init__]. *)
Record Battery : Type := {
  bus : Handle T;
  busAddr : Z
}.

(** The state a method runs in. *)
Record Heap : Type := {
  self : Battery;
  hw : Bus T;
  log : list Tx
}.

Definition M (A : Type) : Type := Heap -> outcome A * Heap.

Definition ret {A} (a : A) : M A := fun h => (Return a, h).

Definition raise {A} (e : exn) : M A := fun h => (Raise e, h).

Definition bind {A B} (m : M A) (k : A -> M B) : M B :=
  fun h =>
    match m h with
    | (Return a, h') => k a h'
    | (Raise e, h') => (Raise e, h')
    end.

Notation "x <- m ;; k" := (bind m (fun x => k))
  (at level 61, m at next level, right associativity).

(** Record a transfer, let the bus answer, and turn a bus failure into
    a raised exception. *)
Definition transfer {A} (t : Tx) (io : Bus T -> (Err T + A) * Bus T) : M A :=
  fun h =>
    let (r, hw') := io (hw h) in
    let h' := {| self := self h; hw := hw'; log := log h ++ [t] |} in
    match r with
    | inl e => (Raise (BusError e), h')
    | inr a => (Return a, h')
    end.

(** [self.bus.read_byte_data(self.busAddr, comm)] *)
Definition self_bus_read_byte_data (comm : Z) : M (list Z) :=
  fun h =>
    let b := bus (self h) in
    let a := busAddr (self h) in
    transfer (ReadByteData b a comm) (read_byte_data T b a comm) h.

(** [self.bus.read_block_data(self.busAddr, comm, nBytes)] *)
Definition self_bus_read_block_data (comm nBytes : Z) : M (list Z) :=
  fun h =>
    let b := bus (self h) in
    let a := busAddr (self h) in
    transfer (ReadBlockData b a comm nBytes) (read_block_data T b a comm nBytes) h.

(** [self.bus.write_byte_data(self.busAddr, comm, word)] *)
Definition self_bus_write_byte_data (comm word : Z) : M unit :=
  fun h =>
    let b := bus (self h) in
    let a := busAddr (self h) in
    transfer (WriteByteData b a comm word) (write_byte_data T b a comm word) h.

(** [data[i]] for a literal, non-negative [i]. *)
Definition getitem (data : list Z) (i : nat) : M Z :=
  match nth_error data i with
  | Some x => ret x
  | None => raise IndexError
  end.

(** ** The class *)

(** [Battery(address, nBus)]: the expression yields an object only when
    [__init__] returns. *)
Definition Battery_init (address nBus : Z) (w : Bus T) : outcome Battery * Bus T :=
  match SMBus T nBus w with
  | (inl e, w') => (Raise (BusError e), w')
  | (inr b, w') => (Return {| bus := b; busAddr := address |}, w')
  end.

Definition WriteWord (comm word : Z) : M pyval :=
  _ <- self_bus_write_byte_data comm word ;;
  ret PyNone.

Definition ReadWord (comm : Z) : M Z :=
  data <- self_bus_read_byte_data comm ;;
  msb <- getitem data 1 ;;
  lsb <- getitem data 0 ;;
  ret (Z.lor (Z.shiftl msb 8) (Z.shiftr lsb 4)).

Definition BlockRead (comm nBytes : Z) : M Z :=
  data <- self_bus_read_block_data comm nBytes ;;
  msb <- getitem data 1 ;;
  lsb <- getitem data 0 ;;
  ret (Z.lor (Z.shiftl msb 8) (Z.shiftr lsb 4)).

(** [self.ReadWord(args)]: the method takes exactly one argument besides
    [self]; any other number is a [TypeError] raised before the body
    runs. *)
Definition call_ReadWord (args : list Z) : M Z :=
  match args with
  | [comm] => ReadWord comm
  | _ => raise TypeError
  end.

(** [v(args)] for an integer [v]: integers are not callable. *)
Definition call_int (v : Z) (args : list Z) : M pyval :=
  raise TypeError.

Definition AtRateTimeToFull : M pyval :=
  v <- call_ReadWord [0x05] ;; ret (PyInt v).

Definition AtRateTimeToEmpty : M pyval :=
  v <- call_ReadWord [0x06] ;; ret (PyInt v).

Definition Temperature : M pyval :=
  v <- call_ReadWord [0x08] ;; ret (PyInt v).

Definition Voltage : M pyval :=
  v <- call_ReadWord [0x09] ;; ret (PyInt v).

Definition Current : M pyval :=
  v <- call_ReadWord [0x0a] ;; ret (PyInt v).

Definition AverageCurrent : M pyval :=
  v <- call_ReadWord [0x0b] ;; ret (PyInt v).

Definition MaxError : M pyval :=
  v <- call_ReadWord [0x0c] ;; ret (PyInt v).

Definition RelativeStateOfCharge : M pyval :=
  v <- call_ReadWord [0x0d] ;; ret (PyInt v).

Definition AbsoluteStateOfCharge : M pyval :=
  v <- call_ReadWord [0x0e] ;; ret (PyInt v).

Definition RemainingCapacity : M pyval :=
  v <- call_ReadWord [0x0f] ;; ret (PyInt v).

Definition FullChargeCapacity : M pyval :=
  f <- call_ReadWord [] ;; _ <- call_int f [0x10] ;; ret PyNone.

Definition RunTimeToEmpty : M pyval :=
  f <- call_ReadWord [] ;; _ <- call_int f [0x11] ;; ret PyNone.

Definition AverageTimeToEmpty : M pyval :=
  _ <- call_ReadWord [0x12] ;; ret PyNone.

Definition AverageTimeToFull : M pyval :=
  f <- call_ReadWord [] ;; _ <- call_int f [0x13] ;; ret PyNone.

Definition ChargingCurrent : M pyval :=
  _ <- call_ReadWord [0x14] ;; ret PyNone.

Definition ChargingVoltage : M pyval :=
  _ <- call_ReadWord [0x15] ;; ret PyNone.

Definition BatteryStatus : M pyval :=
  _ <- call_ReadWord [0x16] ;; ret PyNone.

Definition CycleCount : M pyval :=
  _ <- call_ReadWord [0x17] ;; ret PyNone.

Definition DesignCapacity : M pyval :=
  _ <- call_ReadWord [0x18] ;; ret PyNone.

Definition DesignVoltage : M pyval :=
  _ <- call_ReadWord [0x19] ;; ret PyNone.

Definition SerialNumber : M pyval :=
  _ <- call_ReadWord [0x1c] ;; ret PyNone.

(** ** The accessor catalog *)

Inductive Accessor : Type :=
| A_AtRateTimeToFull | A_AtRateTimeToEmpty | A_Temperature | A_Voltage
| A_Current | A_AverageCurrent | A_MaxError | A_RelativeStateOfCharge
| A_AbsoluteStateOfCharge | A_RemainingCapacity | A_FullChargeCapacity
| A_RunTimeToEmpty | A_AverageTimeToEmpty | A_AverageTimeToFull
| A_ChargingCurrent | A_ChargingVoltage | A_BatteryStatus | A_CycleCount
| A_DesignCapacity | A_DesignVoltage | A_SerialNumber.

Definition catalog : list Accessor :=
  [ A_AtRateTimeToFull; A_AtRateTimeToEmpty; A_Temperature; A_Voltage;
    A_Current; A_AverageCurrent; A_MaxError; A_RelativeStateOfCharge;
    A_AbsoluteStateOfCharge; A_RemainingCapacity; A_FullChargeCapacity;
    A_RunTimeToEmpty; A_AverageTimeToEmpty; A_AverageTimeToFull;
    A_ChargingCurrent; A_ChargingVoltage; A_BatteryStatus; A_CycleCount;
    A_DesignCapacity; A_DesignVoltage; A_SerialNumber ].

(** The method behind each catalog entry. *)
Definition invoke (a : Accessor) : M pyval :=
  match a with
  | A_AtRateTimeToFull => AtRateTimeToFull
  | A_AtRateTimeToEmpty => AtRateTimeToEmpty
  | A_Temperature => Temperature
  | A_Voltage => Voltage
  | A_Current => Current
  | A_AverageCurrent => AverageCurrent
  | A_MaxError => MaxError
  | A_RelativeStateOfCharge => RelativeStateOfCharge
  | A_AbsoluteStateOfCharge => AbsoluteStateOfCharge
  | A_RemainingCapacity => RemainingCapacity
  | A_FullChargeCapacity => FullChargeCapacity
  | A_RunTimeToEmpty => RunTimeToEmpty
  | A_AverageTimeToEmpty => AverageTimeToEmpty
  | A_AverageTimeToFull => AverageTimeToFull
  | A_ChargingCurrent => ChargingCurrent
  | A_ChargingVoltage => ChargingVoltage
  | A_BatteryStatus => BatteryStatus
  | A_CycleCount => CycleCount
  | A_DesignCapacity => DesignCapacity
  | A_DesignVoltage => DesignVoltage
  | A_SerialNumber => SerialNumber
  end.

(** The command code the register map documents for each entry. *)
Definition documented_code (a : Accessor) : Z :=
  match a with
  | A_AtRateTimeToFull => 0x05
  | A_AtRateTimeToEmpty => 0x06
  | A_Temperature => 0x08
  | A_Voltage => 0x09
  | A_Current => 0x0a
  | A_AverageCurrent => 0x0b
  | A_MaxError => 0x0c
  | A_RelativeStateOfCharge => 0x0d
  | A_AbsoluteStateOfCharge => 0x0e
  | A_RemainingCapacity => 0x0f
  | A_FullChargeCapacity => 0x10
  | A_RunTimeToEmpty => 0x11
  | A_AverageTimeToEmpty => 0x12
  | A_AverageTimeToFull => 0x13
  | A_ChargingCurrent => 0x14
  | A_ChargingVoltage => 0x15
  | A_BatteryStatus => 0x16
  | A_CycleCount => 0x17
  | A_DesignCapacity => 0x18
  | A_DesignVoltage => 0x19
  | A_SerialNumber => 0x1c
  end.

(** ** Sequences of calls on one client *)

Inductive Call : Type :=
| CallWriteWord (comm word : Z)
| CallReadWord (comm : Z)
| CallBlockRead (comm nBytes : Z)
| CallAccessor (a : Accessor).

Definition perform (c : Call) : M pyval :=
  match c with
  | CallWriteWord comm word => WriteWord comm word
  | CallReadWord comm => v <- ReadWord comm ;; ret (PyInt v)
  | CallBlockRead comm nBytes => v <- BlockRead comm nBytes ;; ret (PyInt v)
  | CallAccessor a => invoke a
  end.

(** A caller that makes the calls one after the other, whatever each of
    them returns or raises. *)
Fixpoint session (cs : list Call) (h : Heap) : Heap :=
  match cs with
  | [] => h
  | c :: cs' => session cs' (snd (perform c h))
  end.

End Client.

Arguments Return {T A} _.
Arguments Raise {T A} _.
Arguments TypeError {T}.
Arguments IndexError {T}.
Arguments BusError {T} _.
Arguments self {T} _.
Arguments hw {T} _.
Arguments log {T} _.
Arguments bus {T} _.
Arguments busAddr {T} _.
Arguments tx_bus {T} _.
Arguments tx_addr {T} _.
Arguments tx_comm {T} _.
Arguments is_read {T} _.

(** Which catalog methods end in a [return] statement. *)
Definition has_return (a : Accessor) : bool :=
  match a with
  | A_AtRateTimeToFull | A_AtRateTimeToEmpty | A_Temperature | A_Voltage
  | A_Current | A_AverageCurrent | A_MaxError | A_RelativeStateOfCharge
  | A_AbsoluteStateOfCharge | A_RemainingCapacity => true
  | _ => false
  end.

(** Which catalog methods call [self.ReadWord] with its argument. *)
Definition passes_command (a : Accessor) : bool :=
  match a with
  | A_FullChargeCapacity | A_RunTimeToEmpty | A_AverageTimeToFull => false
  | _ => true
  end.

(** The result of a catalog method whose read primitive finished with [r]. *)
Definition deliver {T} (a : Accessor) (r : outcome T Z) : outcome T pyval :=
  match r with
  | Return v => Return (if has_return a then PyInt v else PyNone)
  | Raise e => Raise e
  end.

(** What both read primitives make of the answer of the bus: the bus
    error, an [IndexError] when the sequence has no element 1 or 0, the
    assembled word otherwise. *)
Definition assemble {T} (r : Err T + list Z) : outcome T Z :=
  match r with
  | inl e => Raise (BusError e)
  | inr data =>
      match nth_error data 1, nth_error data 0 with
      | Some msb, Some lsb => Return (Z.lor (Z.shiftl msb 8) (Z.shiftr lsb 4))
      | _, _ => Raise IndexError
      end
  end.

(** The transfers a call adds to the log: one for each primitive and
    for each catalog method that passes its command code, none for a
    catalog method that stops at [self.ReadWord()]. *)
Definition issued {T} (c : Call) (h : Heap T) : list (Tx T) :=
  let b := bus (self h) in
  let d := busAddr (self h) in
  match c with
  | CallWriteWord comm word => [WriteByteData T b d comm word]
  | CallReadWord comm => [ReadByteData T b d comm]
  | CallBlockRead comm nBytes => [ReadBlockData T b d comm nBytes]
  | CallAccessor a =>
      if passes_command a then [ReadByteData T b d (documented_code a)] else []
  end.

(** The two-byte assembly of the register protocol, in the words of the
    register map: high byte shifted up by eight, low byte shifted down by
    four. *)
Definition word_of (lsb msb : Z) : Z := Z.lor (Z.shiftl msb 8) (Z.shiftr lsb 4).

(** ** A bench transport

    One battery answers at address [0x0b] on bus 1; every other bus
    number cannot be opened ([ENOENT]) and every other address does not
    acknowledge ([EREMOTEIO]).  The bus state counts the transfers. *)
Definition bench : Transport := {|
  Bus := Z;
  Err := Z;
  Handle := Z;
  SMBus := fun nBus w => if nBus =? 1 then (inr nBus, w) else (inl 2, w);
  read_byte_data := fun _ addr _ w =>
    if addr =? 0x0b then (inr [0xF0; 0x01], w + 1) else (inl 121, w + 1);
  read_block_data := fun _ addr _ nBytes w =>
    if addr =? 0x0b
    then (inr (firstn (Z.to_nat nBytes) (0xF0 :: 0x01 :: repeat 0xAA 62)), w + 1)
    else (inl 121, w + 1);
  write_byte_data := fun _ addr _ _ w =>
    if addr =? 0x0b then (inr tt, w + 1) else (inl 121, w + 1)
|}.

(** A client of the battery that answers, and one of an address nobody
    answers at. *)
Definition present : Heap bench :=
  Build_Heap bench (Build_Battery bench 1 0x0b) 0 [].

Definition absent : Heap bench :=
  Build_Heap bench (Build_Battery bench 1 0x0c) 0 [].

(** The write transfers a call adds to the log: [WriteWord] is the only
    method whose body calls [write_byte_data]. *)
Definition writes_of {T} (c : Call) (h : Heap T) : list (Tx T) :=
  match c with
  | CallWriteWord comm word =>
      [WriteByteData T (bus (self h)) (busAddr (self h)) comm word]
  | _ => []
  end.

Definition is_write {T} (t : Tx T) : bool := negb (is_read t).

(** ** A terse transport

    A bus object whose byte read hands back the one byte it read, as a
    one-element sequence, and whose block read hands back nothing. *)
Definition terse : Transport := {|
  Bus := Z;
  Err := Z;
  Handle := Z;
  SMBus := fun nBus w => (inr nBus, w);
  read_byte_data := fun _ _ _ w => (inr [0x5A], w + 1);
  read_block_data := fun _ _ _ _ w => (inr [], w + 1);
  write_byte_data := fun _ _ _ _ w => (inr tt, w + 1)
|}.

Definition terse_client : Heap terse :=
  Build_Heap terse (Build_Battery terse 1 0x0b) 0 [].

(** * Properties *)

(** ** What each primitive computes *)

Section Runs.

Context {T : Transport}.

Implicit Types (h : Heap T) (comm word nBytes : Z).

Lemma ReadWord_run h comm :
  ReadWord T comm h =
  (assemble (fst (read_byte_data T (bus (self h)) (busAddr (self h)) comm (hw h))),
   {| self := self h;
      hw := snd (read_byte_data T (bus (self h)) (busAddr (self h)) comm (hw h));
      log := log h ++ [ReadByteData T (bus (self h)) (busAddr (self h)) comm] |}).
Proof.
  unfold ReadWord, bind, self_bus_read_byte_data, transfer, getitem, ret, raise.
  destruct (read_byte_data T _ _ comm (hw h)) as [[e | data] w]; cbn; [reflexivity |].
  destruct data as [| b0 [| b1 rest]]; reflexivity.
Qed.

Lemma BlockRead_run h comm nBytes :
  BlockRead T comm nBytes h =
  (assemble (fst (read_block_data T (bus (self h)) (busAddr (self h)) comm nBytes (hw h))),
   {| self := self h;
      hw := snd (read_block_data T (bus (self h)) (busAddr (self h)) comm nBytes (hw h));
      log := log h ++ [ReadBlockData T (bus (self h)) (busAddr (self h)) comm nBytes] |}).
Proof.
  unfold BlockRead, bind, self_bus_read_block_data, transfer, getitem, ret, raise.
  destruct (read_block_data T _ _ comm nBytes (hw h)) as [[e | data] w]; cbn; [reflexivity |].
  destruct data as [| b0 [| b1 rest]]; reflexivity.
Qed.

Lemma WriteWord_run h comm word :
  WriteWord T comm word h =
  (match fst (write_byte_data T (bus (self h)) (busAddr (self h)) comm word (hw h)) with
   | inl e => Raise (BusError e)
   | inr _ => Return PyNone
   end,
   {| self := self h;
      hw := snd (write_byte_data T (bus (self h)) (busAddr (self h)) comm word (hw h));
      log := log h ++ [WriteByteData T (bus (self h)) (busAddr (self h)) comm word] |}).
Proof.
  unfold WriteWord, bind, self_bus_write_byte_data, transfer, ret.
  destruct (write_byte_data T _ _ comm word (hw h)) as [[e | u] w]; reflexivity.
Qed.

(** A catalog method that passes its command code is its [ReadWord] call
    followed by the hand-over of the result. *)
Lemma invoke_run h a :
  passes_command a = true ->
  invoke T a h =
  (deliver a (fst (ReadWord T (documented_code a) h)),
   snd (ReadWord T (documented_code a) h)).
Proof.
  intros Hp.
  destruct a; try discriminate Hp; cbn -[ReadWord];
    unfold AtRateTimeToFull, AtRateTimeToEmpty, Temperature, Voltage, Current,
      AverageCurrent, MaxError, RelativeStateOfCharge, AbsoluteStateOfCharge,
      RemainingCapacity, AverageTimeToEmpty, ChargingCurrent, ChargingVoltage,
      BatteryStatus, CycleCount, DesignCapacity, DesignVoltage, SerialNumber,
      bind, call_ReadWord, ret;
    destruct (ReadWord T _ h) as [[v | e] h']; reflexivity.
Qed.

(** A catalog method that calls [self.ReadWord()] stops there. *)
Lemma invoke_stuck h a :
  passes_command a = false -> invoke T a h = (Raise TypeError, h).
Proof.
  destruct a; intros Hp; try discriminate Hp; reflexivity.
Qed.

End Runs.

(** ** Arithmetic of the assembled word *)

Lemma byte_high_bits_clear x n : 0 <= x <= 255 -> 8 <= n -> Z.testbit x n = false.
Proof.
  intros Hx Hn.
  destruct (Z.eq_dec x 0) as [-> | Hnz]; [apply Z.testbit_0_l |].
  apply Z.bits_above_log2; [lia |].
  assert (Z.log2 x < 8) by (apply Z.log2_lt_pow2; [lia | change (2 ^ 8) with 256; lia]).
  lia.
Qed.

Lemma word_of_disjoint lsb msb :
  0 <= lsb <= 255 -> Z.land (Z.shiftl msb 8) (Z.shiftr lsb 4) = 0.
Proof.
  intros Hl. apply Z.bits_inj'. intros n Hn.
  rewrite Z.land_spec, Z.bits_0.
  destruct (Z_lt_ge_dec n 8) as [Hlt | Hge].
  - rewrite Z.shiftl_spec_low by lia. reflexivity.
  - rewrite Z.shiftr_spec by lia.
    rewrite (byte_high_bits_clear lsb (n + 4)) by lia.
    apply andb_false_r.
Qed.

Lemma word_of_sum lsb msb :
  0 <= lsb <= 255 -> word_of lsb msb = msb * 256 + lsb / 16.
Proof.
  intros Hl. unfold word_of.
  rewrite <- Z.lxor_lor by (apply word_of_disjoint; exact Hl).
  rewrite <- Z.add_nocarry_lxor by (apply word_of_disjoint; exact Hl).
  rewrite Z.shiftl_mul_pow2, Z.shiftr_div_pow2 by lia.
  reflexivity.
Qed.

Lemma word_of_upper lsb msb :
  0 <= lsb <= 255 -> 0 <= msb <= 255 -> 0 <= word_of lsb msb <= 0xFF0F.
Proof.
  intros Hl Hm. rewrite word_of_sum by exact Hl.
  assert (0 <= lsb / 16 <= 15).
  { split; [apply Z.div_pos; lia |].
    apply Z.lt_succ_r. apply Z.div_lt_upper_bound; lia. }
  lia.
Qed.

Lemma word_of_second_nibble lsb msb i :
  0 <= lsb <= 255 -> 4 <= i <= 7 -> Z.testbit (word_of lsb msb) i = false.
Proof.
  intros Hl Hi. unfold word_of.
  rewrite Z.lor_spec, Z.shiftl_spec_low by lia.
  rewrite Z.shiftr_spec by lia.
  apply byte_high_bits_clear; lia.
Qed.

(** ** Word decoding *)

(** C1. When the bus answers a single-register read with the two bytes
    [lsb], [msb] (in this order), [ReadWord] returns exactly
    [(msb << 8) | (lsb >> 4)]; for [lsb = 0xF0], [msb = 0x01] that is
    [0x10F]. *)
Theorem ReadWord_decodes_word :
  forall (T : Transport) (h : Heap T) (comm lsb msb : Z) (w : Bus T),
    read_byte_data T (bus (self h)) (busAddr (self h)) comm (hw h) = (inr [lsb; msb], w) ->
    fst (ReadWord T comm h) = Return (Z.lor (Z.shiftl msb 8) (Z.shiftr lsb 4))
    /\ (lsb = 0xF0 -> msb = 0x01 -> fst (ReadWord T comm h) = Return 0x10F).
Proof.
  intros T h comm lsb msb w Hread.
  assert (Hrun : fst (ReadWord T comm h) = Return (Z.lor (Z.shiftl msb 8) (Z.shiftr lsb 4))).
  { rewrite ReadWord_run, Hread. reflexivity. }
  split; [exact Hrun |].
  intros -> ->. exact Hrun.
Qed.

Lemma ReadWord_decodes_word_witness :
  fst (ReadWord bench 0x08 present) = Return 0x10F.
Proof.
  exact (proj2 (ReadWord_decodes_word bench present 0x08 0xF0 0x01 1 eq_refl)
           eq_refl eq_refl).
Defined.

(** C4. When the bus answers a block read with at least two bytes,
    [BlockRead] returns [(block[1] << 8) | (block[0] >> 4)], which is the
    value [ReadWord] computes from a two-byte answer made of the same
    bytes 0 and 1; the bytes from index 2 on play no part. *)
Theorem BlockRead_decodes_like_ReadWord :
  forall (T : Transport) (h : Heap T) (comm nBytes b0 b1 : Z) (rest : list Z) (w : Bus T),
    read_block_data T (bus (self h)) (busAddr (self h)) comm nBytes (hw h)
      = (inr (b0 :: b1 :: rest), w) ->
    fst (BlockRead T comm nBytes h) = Return (Z.lor (Z.shiftl b1 8) (Z.shiftr b0 4))
    /\ (forall (h2 : Heap T) (comm2 : Z) (w2 : Bus T),
          read_byte_data T (bus (self h2)) (busAddr (self h2)) comm2 (hw h2)
            = (inr [b0; b1], w2) ->
          fst (BlockRead T comm nBytes h) = fst (ReadWord T comm2 h2))
    /\ (forall (h3 : Heap T) (comm3 nBytes3 : Z) (rest3 : list Z) (w3 : Bus T),
          read_block_data T (bus (self h3)) (busAddr (self h3)) comm3 nBytes3 (hw h3)
            = (inr (b0 :: b1 :: rest3), w3) ->
          fst (BlockRead T comm3 nBytes3 h3) = fst (BlockRead T comm nBytes h)).
Proof.
  intros T h comm nBytes b0 b1 rest w Hblock.
  assert (Hrun : fst (BlockRead T comm nBytes h)
                 = Return (Z.lor (Z.shiftl b1 8) (Z.shiftr b0 4))).
  { rewrite BlockRead_run, Hblock. reflexivity. }
  split; [exact Hrun |]. split.
  - intros h2 comm2 w2 Hread.
    rewrite Hrun, ReadWord_run, Hread. reflexivity.
  - intros h3 comm3 nBytes3 rest3 w3 Hblock3.
    rewrite Hrun, BlockRead_run, Hblock3. reflexivity.
Qed.

Lemma BlockRead_decodes_like_ReadWord_witness :
  fst (BlockRead bench 0x20 5 present) = Return 0x10F
  /\ fst (BlockRead bench 0x20 5 present) = fst (ReadWord bench 0x08 present)
  /\ fst (BlockRead bench 0x21 2 present) = fst (BlockRead bench 0x20 5 present).
Proof.
  pose proof (BlockRead_decodes_like_ReadWord bench present 0x20 5 0xF0 0x01
                [0xAA; 0xAA; 0xAA] 1 eq_refl) as [H1 [H2 H3]].
  split; [exact H1 |]. split.
  - exact (H2 present 0x08 1 eq_refl).
  - exact (H3 present 0x21 2 [] 1 eq_refl).
Defined.

(** C10. For bytes [lsb], [msb] in [0, 255] the word either read
    primitive returns is at most [0xFF0F], so it fits in 16 bits, and its
    bits 4 to 7 are zero. *)
Theorem decoded_word_range :
  forall (T : Transport) (h : Heap T) (comm nBytes lsb msb : Z),
    0 <= lsb <= 255 -> 0 <= msb <= 255 ->
    (forall w, read_byte_data T (bus (self h)) (busAddr (self h)) comm (hw h)
                 = (inr [lsb; msb], w) ->
       exists v, fst (ReadWord T comm h) = Return v
                 /\ v = Z.lor (Z.shiftl msb 8) (Z.shiftr lsb 4)
                 /\ 0 <= v <= 0xFF0F /\ v < 2 ^ 16
                 /\ forall i, 4 <= i <= 7 -> Z.testbit v i = false)
    /\ (forall rest w, read_block_data T (bus (self h)) (busAddr (self h)) comm nBytes (hw h)
                         = (inr (lsb :: msb :: rest), w) ->
       exists v, fst (BlockRead T comm nBytes h) = Return v
                 /\ v = Z.lor (Z.shiftl msb 8) (Z.shiftr lsb 4)
                 /\ 0 <= v <= 0xFF0F /\ v < 2 ^ 16
                 /\ forall i, 4 <= i <= 7 -> Z.testbit v i = false).
Proof.
  intros T h comm nBytes lsb msb Hl Hm.
  pose proof (word_of_upper lsb msb Hl Hm) as Hup.
  assert (Hfit : word_of lsb msb < 2 ^ 16) by (change (2 ^ 16) with 65536; lia).
  split.
  - intros w Hread. exists (word_of lsb msb).
    rewrite ReadWord_run, Hread.
    repeat split; try (apply Hup); try exact Hfit.
    intros i Hi. apply word_of_second_nibble; assumption.
  - intros rest w Hblock. exists (word_of lsb msb).
    rewrite BlockRead_run, Hblock.
    repeat split; try (apply Hup); try exact Hfit.
    intros i Hi. apply word_of_second_nibble; assumption.
Qed.

Lemma decoded_word_range_witness :
  (exists v, fst (ReadWord bench 0x09 present) = Return v
             /\ v = Z.lor (Z.shiftl 0x01 8) (Z.shiftr 0xF0 4)
             /\ 0 <= v <= 0xFF0F /\ v < 2 ^ 16
             /\ forall i, 4 <= i <= 7 -> Z.testbit v i = false)
  /\ (exists v, fst (BlockRead bench 0x09 4 present) = Return v
             /\ v = Z.lor (Z.shiftl 0x01 8) (Z.shiftr 0xF0 4)
             /\ 0 <= v <= 0xFF0F /\ v < 2 ^ 16
             /\ forall i, 4 <= i <= 7 -> Z.testbit v i = false).
Proof.
  destruct (decoded_word_range bench present 0x09 4 0xF0 0x01
              ltac:(lia) ltac:(lia)) as [Hw Hb].
  split.
  - exact (Hw 1 eq_refl).
  - exact (Hb [0xAA; 0xAA] 1 eq_refl).
Defined.

(** ** What a call leaves behind *)

Section Frame.

Context {T : Transport}.

Implicit Types (h : Heap T) (c : Call) (a : Accessor).

Lemma perform_self c h : self (snd (perform T c h)) = self h.
Proof.
  destruct c as [comm word | comm | comm nBytes | a]; cbn [perform].
  - rewrite WriteWord_run. reflexivity.
  - unfold bind. rewrite ReadWord_run.
    destruct (assemble _); reflexivity.
  - unfold bind. rewrite BlockRead_run.
    destruct (assemble _); reflexivity.
  - destruct (passes_command a) eqn:Hp.
    + rewrite invoke_run by exact Hp. rewrite ReadWord_run. reflexivity.
    + rewrite invoke_stuck by exact Hp. reflexivity.
Qed.

Lemma perform_log c h : log (snd (perform T c h)) = log h ++ issued c h.
Proof.
  destruct c as [comm word | comm | comm nBytes | a]; cbn [perform issued].
  - rewrite WriteWord_run. reflexivity.
  - unfold bind. rewrite ReadWord_run.
    destruct (assemble _); reflexivity.
  - unfold bind. rewrite BlockRead_run.
    destruct (assemble _); reflexivity.
  - destruct (passes_command a) eqn:Hp.
    + rewrite invoke_run by exact Hp. rewrite ReadWord_run. reflexivity.
    + rewrite invoke_stuck by exact Hp. cbn. symmetry. apply app_nil_r.
Qed.

Lemma issued_at_most_one c h : (length (issued c h) <= 1)%nat.
Proof.
  destruct c as [comm word | comm | comm nBytes | a]; cbn; try lia.
  destruct (passes_command a); cbn; lia.
Qed.

Lemma issued_targets_self c h :
  Forall (fun t => tx_bus t = bus (self h) /\ tx_addr t = busAddr (self h)) (issued c h).
Proof.
  destruct c as [comm word | comm | comm nBytes | a]; cbn;
    try (constructor; [split; reflexivity | constructor]).
  destruct (passes_command a); constructor; [split; reflexivity | constructor].
Qed.

(** Nothing a call does depends on the transfers made before it: two
    states with the same object and the same bus state give the same
    result, the same bus state and the same new transfers. *)
Lemma perform_ignores_log c h1 h2 :
  self h1 = self h2 -> hw h1 = hw h2 ->
  fst (perform T c h1) = fst (perform T c h2)
  /\ hw (snd (perform T c h1)) = hw (snd (perform T c h2))
  /\ issued c h1 = issued c h2.
Proof.
  intros Hs Hw.
  destruct c as [comm word | comm | comm nBytes | a]; cbn [perform issued].
  - rewrite !WriteWord_run, Hs, Hw. cbn. auto.
  - unfold bind. rewrite !ReadWord_run, Hs, Hw.
    destruct (assemble _); cbn; auto.
  - unfold bind. rewrite !BlockRead_run, Hs, Hw.
    destruct (assemble _); cbn; auto.
  - destruct (passes_command a) eqn:Hp.
    + rewrite !invoke_run by exact Hp. rewrite !ReadWord_run, Hs, Hw. cbn. auto.
    + rewrite !invoke_stuck by exact Hp. cbn. auto.
Qed.

Lemma session_self cs h : self (session T cs h) = self h.
Proof.
  revert h. induction cs as [| c cs IH]; intros h; cbn [session].
  - reflexivity.
  - rewrite IH. apply perform_self.
Qed.

(** Every transfer of a run of calls goes to the bus object and the
    address held by the client, provided the earlier ones did. *)
Lemma session_targets_self cs h :
  Forall (fun t => tx_bus t = bus (self h) /\ tx_addr t = busAddr (self h)) (log h) ->
  Forall (fun t => tx_bus t = bus (self h) /\ tx_addr t = busAddr (self h))
         (log (session T cs h)).
Proof.
  revert h. induction cs as [| c cs IH]; intros h Hlog; cbn [session].
  - exact Hlog.
  - pose proof (perform_self c h) as Hs.
    specialize (IH (snd (perform T c h))).
    rewrite Hs in IH. apply IH.
    rewrite perform_log. apply Forall_app. split.
    + exact Hlog.
    + apply issued_targets_self.
Qed.

(** A bus failure during the read of a catalog method that passes its
    command code leaves the method as that very exception. *)
Lemma invoke_propagates a h (e : Err T) :
  passes_command a = true ->
  fst (read_byte_data T (bus (self h)) (busAddr (self h)) (documented_code a) (hw h)) = inl e ->
  fst (invoke T a h) = Raise (BusError e).
Proof.
  intros Hp Hfail. rewrite invoke_run by exact Hp.
  rewrite ReadWord_run. cbn [fst]. rewrite Hfail. reflexivity.
Qed.

End Frame.

(** ** Construction *)

(** C7. When the bus cannot be opened, the constructor raises the error
    of the bus and yields no client.  When it can, the client holds the
    bus object and the given address, no later call changes them, and
    every transfer of every later call goes to that address on that bus
    object. *)
Theorem Battery_init_all_or_nothing :
  forall (T : Transport) (address nBus : Z) (w : Bus T),
    (forall e w', SMBus T nBus w = (inl e, w') ->
       Battery_init T address nBus w = (Raise (BusError e), w'))
    /\ (forall b w', SMBus T nBus w = (inr b, w') ->
          exists client,
            Battery_init T address nBus w = (Return client, w')
            /\ bus client = b /\ busAddr client = address
            /\ forall (cs : list Call) (w'' : Bus T),
                 let h := session T cs (Build_Heap T client w'' []) in
                 self h = client
                 /\ Forall (fun t => tx_bus t = b /\ tx_addr t = address) (log h)).
Proof.
  intros T address nBus w. split.
  - intros e w' Hopen. unfold Battery_init. rewrite Hopen. reflexivity.
  - intros b w' Hopen. exists (Build_Battery T b address).
    unfold Battery_init. rewrite Hopen.
    repeat split.
    + apply session_self.
    + apply (session_targets_self cs (Build_Heap T (Build_Battery T b address) w'' [])).
      constructor.
Qed.

Lemma Battery_init_all_or_nothing_witness :
  Battery_init bench 0x0b 7 0 = (Raise (@BusError bench 2), 0)
  /\ exists client,
       Battery_init bench 0x0b 1 0 = (Return client, 0)
       /\ bus client = 1 /\ busAddr client = 0x0b
       /\ forall (cs : list Call) (w'' : Bus bench),
            let h := session bench cs (Build_Heap bench client w'' []) in
            self h = client
            /\ Forall (fun t : Tx bench => tx_bus t = 1 /\ tx_addr t = 0x0b) (log h).
Proof.
  split.
  - exact (proj1 (Battery_init_all_or_nothing bench 0x0b 7 0) 2 0 eq_refl).
  - exact (proj2 (Battery_init_all_or_nothing bench 0x0b 1 0) 1 0 eq_refl).
Defined.

(** ** The write primitive *)

(** C9. [WriteWord(comm, word)] adds exactly one transfer to the log, a
    byte write to the stored address with [comm] and [word]; it makes no
    read; it hands back [None] when the bus accepts the write and raises
    the error of the bus otherwise; the client is unchanged. *)
Theorem WriteWord_single_write :
  forall (T : Transport) (h : Heap T) (comm word : Z),
    let b := bus (self h) in
    let d := busAddr (self h) in
    let r := WriteWord T comm word h in
    log (snd r) = log h ++ [WriteByteData T b d comm word]
    /\ filter is_read (log (snd r)) = filter is_read (log h)
    /\ fst r = match fst (write_byte_data T b d comm word (hw h)) with
               | inl e => Raise (BusError e)
               | inr _ => Return PyNone
               end
    /\ hw (snd r) = snd (write_byte_data T b d comm word (hw h))
    /\ self (snd r) = self h.
Proof.
  intros T h comm word b d r. subst r b d.
  rewrite WriteWord_run. cbn [fst snd log hw self].
  repeat split.
  rewrite filter_app. cbn. apply app_nil_r.
Qed.

(** ** Where the catalog departs from its documentation *)

(** C2. The transfers of a catalog method: one byte read carrying the
    documented command code for the methods that pass it to [ReadWord],
    and none at all for [FullChargeCapacity], [RunTimeToEmpty] and
    [AverageTimeToFull], which raise [TypeError] at [self.ReadWord()]
    before the bus is touched. *)
Theorem accessor_transfers :
  forall (T : Transport) (a : Accessor) (h : Heap T),
    log (snd (invoke T a h))
      = log h ++ (if passes_command a
                  then [ReadByteData T (bus (self h)) (busAddr (self h)) (documented_code a)]
                  else [])
    /\ FullChargeCapacity T h = (Raise TypeError, h)
    /\ filter (fun t => tx_comm t =? 0x10) (log (snd (FullChargeCapacity T h)))
         = filter (fun t => tx_comm t =? 0x10) (log h).
Proof.
  intros T a h. split; [| split; reflexivity].
  exact (perform_log (CallAccessor a) h).
Qed.

(** C3. [AverageTimeToEmpty] makes its read and hands back [None]
    whatever word the read produced: on the bench battery [ReadWord(0x12)]
    gives [0x10F] and the method gives [None]. *)
Theorem AverageTimeToEmpty_drops_word :
  (forall (T : Transport) (h : Heap T),
     fst (AverageTimeToEmpty T h)
       = match fst (ReadWord T 0x12 h) with
         | Return _ => Return PyNone
         | Raise e => Raise e
         end)
  /\ fst (ReadWord bench 0x12 present) = Return 0x10F
  /\ fst (AverageTimeToEmpty bench present) = Return PyNone.
Proof.
  split; [| split; reflexivity].
  intros T h.
  change (AverageTimeToEmpty T h) with (invoke T A_AverageTimeToEmpty h).
  rewrite invoke_run by reflexivity. cbn [fst documented_code].
  destruct (fst (ReadWord T 18 h)); reflexivity.
Qed.

(** C5. [BlockRead] hands [nBytes] to the bus as it received it: a
    request for 40 bytes is a 40-byte block read on the wire, and on the
    bench battery it succeeds. *)
Theorem BlockRead_forwards_length :
  (forall (T : Transport) (h : Heap T) (comm nBytes : Z),
     log (snd (BlockRead T comm nBytes h))
       = log h ++ [ReadBlockData T (bus (self h)) (busAddr (self h)) comm nBytes])
  /\ log (snd (BlockRead bench 0x20 40 present)) = [ReadBlockData bench 1 0x0b 0x20 40]
  /\ fst (BlockRead bench 0x20 40 present) = Return 0x10F.
Proof.
  split; [| split; reflexivity].
  intros T h comm nBytes. rewrite BlockRead_run. reflexivity.
Qed.

(** C6. On a client whose every read the bus refuses with error 121,
    [ReadWord(0x10)] raises that error but [FullChargeCapacity] raises
    [TypeError]; on the bench battery [SerialNumber] ends normally with
    [None] although its read produced [0x10F]. *)
Theorem accessor_outcomes_on_bench :
  fst (ReadWord bench 0x10 absent) = Raise (@BusError bench 121)
  /\ fst (invoke bench A_FullChargeCapacity absent) = Raise TypeError
  /\ fst (ReadWord bench 0x1c present) = Return 0x10F
  /\ fst (invoke bench A_SerialNumber present) = Return PyNone.
Proof.
  repeat split.
Qed.

(** C8. [FullChargeCapacity], [RunTimeToEmpty] and [AverageTimeToFull]
    leave the whole state as it was: the client is untouched, and so are
    the bus and the log, so the call is no transfer rather than one. *)
Theorem stuck_accessors_leave_state :
  forall (T : Transport) (h : Heap T),
    snd (invoke T A_FullChargeCapacity h) = h
    /\ snd (invoke T A_RunTimeToEmpty h) = h
    /\ snd (invoke T A_AverageTimeToFull h) = h
    /\ length (log (snd (invoke T A_FullChargeCapacity h))) = length (log h).
Proof.
  intros T h. repeat split.
Qed.

(** ** Short answers *)

(** X1. When the bus answers the byte read with fewer than two elements,
    [ReadWord] raises [IndexError]; the transfer has been made all the
    same (it is on the log once and the bus is in the state the transfer
    left it in), and a catalog method that passes its command code
    raises [IndexError] as well. *)
Theorem ReadWord_short_answer :
  forall (T : Transport) (h : Heap T) (comm : Z) (data : list Z) (w : Bus T),
    read_byte_data T (bus (self h)) (busAddr (self h)) comm (hw h) = (inr data, w) ->
    (length data < 2)%nat ->
    ReadWord T comm h
      = (Raise IndexError,
         Build_Heap T (self h) w
           (log h ++ [ReadByteData T (bus (self h)) (busAddr (self h)) comm]))
    /\ forall a, passes_command a = true -> documented_code a = comm ->
         fst (invoke T a h) = Raise IndexError.
Proof.
  intros T h comm data w Hread Hlen.
  assert (Hrun : ReadWord T comm h
                 = (Raise IndexError,
                    Build_Heap T (self h) w
                      (log h ++ [ReadByteData T (bus (self h)) (busAddr (self h)) comm]))).
  { rewrite ReadWord_run, Hread.
    destruct data as [| b0 [| b1 rest]]; cbn in Hlen |- *; [reflexivity .. | lia]. }
  split; [exact Hrun |].
  intros a Hp Hcode. rewrite invoke_run by exact Hp.
  rewrite Hcode, Hrun. reflexivity.
Qed.

Lemma ReadWord_short_answer_witness :
  ReadWord terse 0x08 terse_client
    = (Raise IndexError,
       Build_Heap terse (Build_Battery terse 1 0x0b) 1 [ReadByteData terse 1 0x0b 0x08])
  /\ fst (invoke terse A_Temperature terse_client) = Raise IndexError.
Proof.
  destruct (ReadWord_short_answer terse terse_client 0x08 [0x5A] 1 eq_refl
              ltac:(cbn; lia)) as [Hrun Hacc].
  split.
  - exact Hrun.
  - exact (Hacc A_Temperature eq_refl eq_refl).
Defined.

(** X2. Against a bus that hands back no more elements than it was asked
    for, [BlockRead] with [nBytes] below 2 cannot produce a word: once
    the bus has answered, the call raises [IndexError], with the
    transfer on the log. *)
Theorem BlockRead_short_request :
  forall (T : Transport) (h : Heap T) (comm nBytes : Z) (data : list Z) (w : Bus T),
    read_block_data T (bus (self h)) (busAddr (self h)) comm nBytes (hw h) = (inr data, w) ->
    Z.of_nat (length data) <= nBytes ->
    nBytes < 2 ->
    BlockRead T comm nBytes h
      = (Raise IndexError,
         Build_Heap T (self h) w
           (log h ++ [ReadBlockData T (bus (self h)) (busAddr (self h)) comm nBytes])).
Proof.
  intros T h comm nBytes data w Hblock Hlen Hn.
  rewrite BlockRead_run, Hblock.
  destruct data as [| b0 [| b1 rest]]; cbn in Hlen |- *; [reflexivity .. | lia].
Qed.

Lemma BlockRead_short_request_witness :
  BlockRead bench 0x20 1 present
    = (Raise IndexError,
       Build_Heap bench (Build_Battery bench 1 0x0b) 1 [ReadBlockData bench 1 0x0b 0x20 1]).
Proof.
  exact (BlockRead_short_request bench present 0x20 1 [0xF0] 1 eq_refl
           ltac:(cbn; lia) ltac:(lia)).
Defined.

(** ** What the word keeps of the two bytes *)



(** X4. For a first byte in [0, 255] the word is [msb * 256 + lsb / 16]:
    shifting it right by eight gives [msb] back and its low byte is the
    high nibble of [lsb]. *)
Theorem ReadWord_word_keeps_high_bits :
  forall (T : Transport) (h : Heap T) (comm lsb msb : Z) (w : Bus T),
    0 <= lsb <= 255 ->
    read_byte_data T (bus (self h)) (busAddr (self h)) comm (hw h) = (inr [lsb; msb], w) ->
    exists v,
      fst (ReadWord T comm h) = Return v
      /\ v = msb * 256 + lsb / 16
      /\ Z.shiftr v 8 = msb
      /\ Z.land v 0xFF = Z.shiftr lsb 4.
Proof.
  intros T h comm lsb msb w Hl Hread.
  exists (word_of lsb msb).
  assert (Hq : 0 <= lsb / 16 < 256).
  { split; [apply Z.div_pos; lia |]. apply Z.div_lt_upper_bound; lia. }
  split; [rewrite ReadWord_run, Hread; reflexivity |].
  rewrite word_of_sum by exact Hl.
  split; [reflexivity |]. split.
  - rewrite Z.shiftr_div_pow2 by lia. change (2 ^ 8) with 256.
    rewrite Z.div_add_l by lia. rewrite Z.div_small by exact Hq. lia.
  - change 0xFF with (Z.ones 8). rewrite Z.land_ones by lia.
    change (2 ^ 8) with 256.
    rewrite Z.add_comm, Z.mod_add by lia.
    rewrite Z.mod_small by exact Hq.
    rewrite Z.shiftr_div_pow2 by lia. reflexivity.
Qed.

Lemma ReadWord_word_keeps_high_bits_witness :
  exists v,
    fst (ReadWord bench 0x09 present) = Return v
    /\ v = 0x01 * 256 + 0xF0 / 16
    /\ Z.shiftr v 8 = 0x01
    /\ Z.land v 0xFF = Z.shiftr 0xF0 4.
Proof.
  exact (ReadWord_word_keeps_high_bits bench present 0x09 0xF0 0x01 1
           ltac:(lia) eq_refl).
Defined.

(** ** Runs of calls *)

Section Traces.

Context {T : Transport}.

Implicit Types (h : Heap T) (c : Call) (cs : list Call).

Lemma issued_same_client c h1 h2 : self h1 = self h2 -> issued c h1 = issued c h2.
Proof.
  intros Hs. unfold issued. rewrite Hs. reflexivity.
Qed.

Lemma session_log cs h :
  log (session T cs h) = log h ++ flat_map (fun c => issued c h) cs.
Proof.
  revert h. induction cs as [| c cs IH]; intros h; cbn [session flat_map].
  - symmetry. apply app_nil_r.
  - rewrite IH, perform_log, <- app_assoc. f_equal. f_equal.
    apply flat_map_ext. intros c'.
    apply issued_same_client, perform_self.
Qed.

Lemma issued_total_length cs h :
  (length (flat_map (fun c => issued c h) cs) <= length cs)%nat.
Proof.
  induction cs as [| c cs IH]; cbn [flat_map length]; [lia |].
  rewrite length_app. pose proof (issued_at_most_one c h). lia.
Qed.

Lemma issued_writes c h : filter is_write (issued c h) = writes_of c h.
Proof.
  destruct c as [comm word | comm | comm nBytes | a]; cbn; try reflexivity.
  destruct (passes_command a); reflexivity.
Qed.

Lemma issued_writes_run cs h :
  filter is_write (flat_map (fun c => issued c h) cs)
    = flat_map (fun c => writes_of c h) cs.
Proof.
  induction cs as [| c cs IH]; cbn [flat_map]; [reflexivity |].
  rewrite filter_app, IH, issued_writes. reflexivity.
Qed.

End Traces.

(** X5. The transfers of a run of calls are fixed by the calls and the
    client alone: one per primitive call and per catalog method that
    passes its code, in call order, whatever the bus answered or refused
    in between; so a run of [n] calls makes at most [n] transfers and
    none is repeated after a failure. *)
Theorem session_wire_trace :
  forall (T : Transport) (cs : list Call) (h : Heap T),
    log (session T cs h) = log h ++ flat_map (fun c => issued c h) cs
    /\ (length (log (session T cs h)) <= length (log h) + length cs)%nat.
Proof.
  intros T cs h. split.
  - apply session_log.
  - rewrite session_log, length_app.
    pose proof (issued_total_length cs h). lia.
Qed.

(** X6. The only writes a run of calls puts on the bus are those of its
    [WriteWord] calls, in call order and with their [comm] and [word]:
    no read primitive and no catalog method ever writes to the battery. *)
Theorem session_writes_are_WriteWord_calls :
  forall (T : Transport) (cs : list Call) (h : Heap T),
    filter is_write (log (session T cs h))
      = filter is_write (log h) ++ flat_map (fun c => writes_of c h) cs.
Proof.
  intros T cs h.
  rewrite session_log, filter_app, issued_writes_run. reflexivity.
Qed.

(** ** The catalog methods that return *)

(** X7. Each of the ten catalog methods that end in [return] hands back
    exactly what [ReadWord] computes for its command code, raises exactly
    what [ReadWord] raises, and leaves the state [ReadWord] leaves; on a
    two-byte answer [lsb], [msb] it returns [(msb << 8) | (lsb >> 4)]. *)
Theorem returning_accessor_is_ReadWord :
  forall (T : Transport) (a : Accessor) (h : Heap T),
    has_return a = true ->
    invoke T a h
      = (match fst (ReadWord T (documented_code a) h) with
         | Return v => Return (PyInt v)
         | Raise e => Raise e
         end,
         snd (ReadWord T (documented_code a) h))
    /\ forall lsb msb w,
         read_byte_data T (bus (self h)) (busAddr (self h)) (documented_code a) (hw h)
           = (inr [lsb; msb], w) ->
         fst (invoke T a h) = Return (PyInt (Z.lor (Z.shiftl msb 8) (Z.shiftr lsb 4))).
Proof.
  intros T a h Hret.
  assert (Hp : passes_command a = true) by (destruct a; try discriminate Hret; reflexivity).
  assert (Hrun : invoke T a h
                 = (match fst (ReadWord T (documented_code a) h) with
                    | Return v => Return (PyInt v)
                    | Raise e => Raise e
                    end,
                    snd (ReadWord T (documented_code a) h))).
  { rewrite invoke_run by exact Hp. unfold deliver. rewrite Hret. reflexivity. }
  split; [exact Hrun |].
  intros lsb msb w Hread. rewrite Hrun, ReadWord_run, Hread. reflexivity.
Qed.

Lemma returning_accessor_is_ReadWord_witness :
  invoke bench A_Temperature present
    = (match fst (ReadWord bench 0x08 present) with
       | Return v => Return (PyInt v)
       | Raise e => Raise e
       end,
       snd (ReadWord bench 0x08 present))
  /\ fst (invoke bench A_Temperature present)
       = Return (PyInt (Z.lor (Z.shiftl 0x01 8) (Z.shiftr 0xF0 4))).
Proof.
  destruct (returning_accessor_is_ReadWord bench A_Temperature present eq_refl)
    as [Hrun Hval].
  split.
  - exact Hrun.
  - exact (Hval 0xF0 0x01 1 eq_refl).
Defined.

(** ** Refusals of the bus *)

(** X8. A transfer the bus refuses is made once and its error leaves the
    method unchanged: [ReadWord], [BlockRead], [WriteWord] and every
    catalog method that passes its command code raise the error of the
    bus, with that one transfer on the log and the bus in the state the
    refusal left it in. *)
Theorem bus_refusal_propagates :
  forall (T : Transport) (h : Heap T) (comm nBytes word : Z) (a : Accessor)
         (e : Err T) (w : Bus T),
    let b := bus (self h) in
    let d := busAddr (self h) in
    (read_byte_data T b d comm (hw h) = (inl e, w) ->
       ReadWord T comm h
         = (Raise (BusError e), Build_Heap T (self h) w (log h ++ [ReadByteData T b d comm])))
    /\ (read_block_data T b d comm nBytes (hw h) = (inl e, w) ->
          BlockRead T comm nBytes h
            = (Raise (BusError e),
               Build_Heap T (self h) w (log h ++ [ReadBlockData T b d comm nBytes])))
    /\ (write_byte_data T b d comm word (hw h) = (inl e, w) ->
          WriteWord T comm word h
            = (Raise (BusError e),
               Build_Heap T (self h) w (log h ++ [WriteByteData T b d comm word])))
    /\ (passes_command a = true ->
        read_byte_data T b d (documented_code a) (hw h) = (inl e, w) ->
          invoke T a h
            = (Raise (BusError e),
               Build_Heap T (self h) w (log h ++ [ReadByteData T b d (documented_code a)]))).
Proof.
  intros T h comm nBytes word a e w b d. subst b d.
  repeat split.
  - intros Hfail. rewrite ReadWord_run, Hfail. reflexivity.
  - intros Hfail. rewrite BlockRead_run, Hfail. reflexivity.
  - intros Hfail. rewrite WriteWord_run, Hfail. reflexivity.
  - intros Hp Hfail. rewrite invoke_run by exact Hp.
    rewrite ReadWord_run, Hfail. reflexivity.
Qed.

Lemma bus_refusal_propagates_witness :
  ReadWord bench 0x08 absent
    = (Raise (@BusError bench 121),
       Build_Heap bench (Build_Battery bench 1 0x0c) 1 [ReadByteData bench 1 0x0c 0x08])
  /\ BlockRead bench 0x08 4 absent
    = (Raise (@BusError bench 121),
       Build_Heap bench (Build_Battery bench 1 0x0c) 1 [ReadBlockData bench 1 0x0c 0x08 4])
  /\ WriteWord bench 0x08 3 absent
    = (Raise (@BusError bench 121),
       Build_Heap bench (Build_Battery bench 1 0x0c) 1 [WriteByteData bench 1 0x0c 0x08 3])
  /\ invoke bench A_Voltage absent
    = (Raise (@BusError bench 121),
       Build_Heap bench (Build_Battery bench 1 0x0c) 1 [ReadByteData bench 1 0x0c 0x09]).
Proof.
  destruct (bus_refusal_propagates bench absent 0x08 4 3 A_Voltage 121 1)
    as [Hr [Hb [Hw Ha]]].
  split; [exact (Hr eq_refl) |].
  split; [exact (Hb eq_refl) |].
  split; [exact (Hw eq_refl) |].
  exact (Ha eq_refl eq_refl).
Defined.

(** ** Registers of the catalog *)

(** X9. Two different catalog methods never read the same register:
    when both pass their command code, the transfers they put on the log
    differ. *)
Theorem accessors_read_distinct_registers :
  forall (T : Transport) (a a' : Accessor) (h : Heap T),
    passes_command a = true ->
    passes_command a' = true ->
    a <> a' ->
    log (snd (invoke T a h)) <> log (snd (invoke T a' h)).
Proof.
  intros T a a' h Hp Hp' Hneq Hlog.
  pose proof (perform_log (CallAccessor a) h) as Ha.
  pose proof (perform_log (CallAccessor a') h) as Ha'.
  cbn [perform issued] in Ha, Ha'.
  rewrite Hp in Ha. rewrite Hp' in Ha'.
  rewrite Ha, Ha' in Hlog.
  apply app_inv_head in Hlog.
  assert (Hcode : documented_code a = documented_code a') by (inversion Hlog; reflexivity).
  clear Hlog Ha Ha'. apply Hneq.
  destruct a; try discriminate Hp; destruct a'; try discriminate Hp';
    try reflexivity; discriminate Hcode.
Qed.

Lemma accessors_read_distinct_registers_witness :
  log (snd (invoke bench A_Voltage present))
    <> log (snd (invoke bench A_Temperature present)).
Proof.
  exact (accessors_read_distinct_registers bench A_Voltage A_Temperature present
           eq_refl eq_refl ltac:(discriminate)).
Defined.

(** ** The catalog methods that do not return *)

(** X10. Each of the eight catalog methods that pass their command code
    but have no [return] makes the read of [ReadWord] and leaves its
    state, raises what [ReadWord] raises, and hands back [None] exactly
    when [ReadWord] produced a word. *)
Theorem dropping_accessor_returns_None :
  forall (T : Transport) (a : Accessor) (h : Heap T),
    passes_command a = true ->
    has_return a = false ->
    invoke T a h
      = (match fst (ReadWord T (documented_code a) h) with
         | Return _ => Return PyNone
         | Raise e => Raise e
         end,
         snd (ReadWord T (documented_code a) h))
    /\ forall lsb msb w,
         read_byte_data T (bus (self h)) (busAddr (self h)) (documented_code a) (hw h)
           = (inr [lsb; msb], w) ->
         fst (invoke T a h) = Return PyNone.
Proof.
  intros T a h Hp Hret.
  assert (Hrun : invoke T a h
                 = (match fst (ReadWord T (documented_code a) h) with
                    | Return _ => Return PyNone
                    | Raise e => Raise e
                    end,
                    snd (ReadWord T (documented_code a) h))).
  { rewrite invoke_run by exact Hp. unfold deliver. rewrite Hret. reflexivity. }
  split; [exact Hrun |].
  intros lsb msb w Hread. rewrite Hrun, ReadWord_run, Hread. reflexivity.
Qed.

Lemma dropping_accessor_returns_None_witness :
  invoke bench A_CycleCount present
    = (match fst (ReadWord bench 0x17 present) with
       | Return _ => Return PyNone
       | Raise e => Raise e
       end,
       snd (ReadWord bench 0x17 present))
  /\ fst (invoke bench A_CycleCount present) = Return PyNone.
Proof.
  destruct (dropping_accessor_returns_None bench A_CycleCount present eq_refl eq_refl)
    as [Hrun Hval].
  split.
  - exact Hrun.
  - exact (Hval 0xF0 0x01 1 eq_refl).
Defined.
